(** * Order type detection (tracker/utils/order_type_detector.py)

    A shallow embedding of the three functions of the module,
    [determine_order_type_from_codes], [_normalize_category_to_order_type]
    and [get_mixed_order_status_display], and the properties of them that
    the design document states.

    Conventions of the embedding.
    - A Python [str] is a [string] of 8-bit characters, read as ASCII text:
      [lower], [strip] and [title] act on the ASCII letters and the ASCII
      white space, every other character is left as it is.
    - A Python [dict] is a [gmap], a Python [set] a [gset]; a list is a
      list.
    - The Django query on [LabourCode] is a function from the cleaned codes
      to the rows it yields, passed to the function as an argument.
    - The [logger.info] call has no effect on the result and is left out. *)

From Stdlib Require Import Ascii NArith.
From stdpp Require Import base gmap sets list strings sorting.

Set Warnings "-clear-no-such-hyp".

(** ** Python strings *)

Module PyStr.

Definition code (c : ascii) : N := N_of_ascii c.

(** [str.isspace] on one ASCII character: TAB, LF, VT, FF, CR, the four
    separators FS, GS, RS, US, and the space. *)
Definition is_space (c : ascii) : bool :=
  (N.leb 9 (code c) && N.leb (code c) 13)
  || (N.leb 28 (code c) && N.leb (code c) 32).

Definition is_upper (c : ascii) : bool :=
  N.leb 65 (code c) && N.leb (code c) 90.

Definition is_lower (c : ascii) : bool :=
  N.leb 97 (code c) && N.leb (code c) 122.

(** A cased character, in the sense of [str.title]. *)
Definition is_cased (c : ascii) : bool := is_upper c || is_lower c.

Definition lower_char (c : ascii) : ascii :=
  if is_upper c then ascii_of_N (code c + 32) else c.

Definition upper_char (c : ascii) : ascii :=
  if is_lower c then ascii_of_N (code c - 32) else c.

(** [s.lower()] *)
Fixpoint lower (s : string) : string :=
  match s with
  | EmptyString => EmptyString
  | String c s' => String (lower_char c) (lower s')
  end.

(** [s.lstrip()] *)
Fixpoint lstrip (s : string) : string :=
  match s with
  | EmptyString => EmptyString
  | String c s' => if is_space c then lstrip s' else s
  end.

(** [s.rstrip()] *)
Fixpoint rstrip (s : string) : string :=
  match s with
  | EmptyString => EmptyString
  | String c s' =>
      match rstrip s' with
      | EmptyString => if is_space c then EmptyString else String c EmptyString
      | r => String c r
      end
  end.

(** [s.strip()] *)
Definition strip (s : string) : string := rstrip (lstrip s).

(** [sub in s] *)
Fixpoint contains (sub s : string) : bool :=
  String.prefix sub s
  || match s with
     | EmptyString => false
     | String _ s' => contains sub s'
     end.

(** [s.title()]: a letter that follows a cased character is lower-cased,
    any other letter is upper-cased. *)
Fixpoint title_from (prev_cased : bool) (s : string) : string :=
  match s with
  | EmptyString => EmptyString
  | String c s' =>
      String (if prev_cased then lower_char c else upper_char c)
             (title_from (is_cased c) s')
  end.

Definition title (s : string) : string := title_from false s.

(** [sep.join(l)] *)
Definition join (sep : string) (l : list string) : string :=
  String.concat sep l.

(** Truth value of a [str]: only the empty string is falsy. *)
Definition truthy (s : string) : bool :=
  match s with EmptyString => false | _ => true end.

(** The order of [<=] on [str]: lexicographic on the character codes. *)
Definition le (s1 s2 : string) : Prop := String.leb s1 s2 = true.

#[global] Instance le_dec (s1 s2 : string) : Decision (le s1 s2).
Proof. unfold le. apply _. Defined.

(** [sorted(l)] on a list of strings. *)
Definition sorted (l : list string) : list string := merge_sort le l.

End PyStr.

(** ** Data model *)

(** An entry of [item_codes]. The annotation is [List[str]]; extracted
    invoice data also carries [None] where a line has no code. *)
Inductive item_code : Type :=
  | PyNone
  | PyString (s : string).

(** [bool(code)] *)
Definition truthy (code : item_code) : bool :=
  match code with
  | PyNone => false
  | PyString s => PyStr.truthy s
  end.

(** [str(code)] *)
Definition str (code : item_code) : string :=
  match code with
  | PyNone => "None"
  | PyString s => s
  end.

(** A row of [.values('code', 'category')]. *)
Record row : Type := Row { row_code : string; row_category : string }.

(** A value stored in the [mapping_info] dict. *)
Inductive info_value : Type :=
  | VDict (d : gmap string string)
  | VList (l : list string).

#[global] Instance item_code_eq_dec : EqDecision item_code.
Proof. solve_decision. Defined.

#[global] Instance row_eq_dec : EqDecision row.
Proof. solve_decision. Defined.

(** The record of the [LabourCode] model that the query reads. *)
Record LabourCode : Type :=
  { code : string; category : string; is_active : bool }.

(** Modelled from the spec: the model [tracker.models.LabourCode] and its
    manager are not part of the module. The query
    [LabourCode.objects.filter(code__in=codes, is_active=True).values('code', 'category')]
    yields, in the order of the table, the code and the category of every
    entry whose active flag is set and whose code is one of [codes]. *)
Definition LabourCode_filter (table : list LabourCode) (codes : list string)
  : list row :=
  (λ e, Row (code e) (category e))
    <$> filter (λ e, code e ∈ codes ∧ is_active e = true) table.

(** ** The functions of the module *)

(** [_normalize_category_to_order_type] *)
Definition _normalize_category_to_order_type (category : string) : string :=
  if negb (PyStr.truthy category) then "sales"
  else
    let category_lower := PyStr.strip (PyStr.lower category) in
    if bool_decide (category_lower = "labour") then "labour"
    else if PyStr.contains "tyre" category_lower
            || PyStr.contains "service" category_lower then "service"
    else "labour".

(** The comprehension [[str(code).strip() for code in item_codes if code]]. *)
Definition clean_codes (item_codes : list item_code) : list string :=
  (λ code, PyStr.strip (str code)) <$> filter (λ code, truthy code = true) item_codes.

(** The state of the loop over the rows of the query:
    [code_to_category], [categories_found] and [found_code_set]. *)
Record mappings : Type := Mappings
  { code_to_category : gmap string string;
    categories_found : gset string;
    found_code_set : gset string }.

(** One turn of [for row in found_codes]. *)
Definition add_row (st : mappings) (r : row) : mappings :=
  {| code_to_category := <[row_code r := row_category r]> (code_to_category st);
     categories_found := {[row_category r]} ∪ categories_found st;
     found_code_set := {[row_code r]} ∪ found_code_set st |}.

Definition build_mappings (found_codes : list row) : mappings :=
  foldl add_row (Mappings ∅ ∅ ∅) found_codes.

(** The loop [for code in cleaned_codes: if code not in found_code_set: ...]. *)
Definition track_unmapped (found : gset string) (cleaned_codes : list string)
  : list string :=
  filter (λ code, code ∉ found) cleaned_codes.

(** The branch that decides [(order_type, categories)]. With one category
    in the set, [list(categories_found)[0]] is that category. *)
Definition decide_order_type (categories_found : gset string)
  : string * list string :=
  if bool_decide (categories_found = ∅) then ("sales", [])
  else if bool_decide (size categories_found = 1) then
    let category := default "" (head (elements categories_found)) in
    (_normalize_category_to_order_type category, [category])
  else ("mixed", PyStr.sorted (elements categories_found)).

(** The dict returned on the two early exits. *)
Definition empty_mapping_info : gmap string info_value :=
  <["mapped" := VDict ∅]> (<["unmapped" := VList []]> ∅).

(** [determine_order_type_from_codes]; [lookup] stands for the query on
    [LabourCode], applied to the cleaned codes. *)
Definition determine_order_type_from_codes
    (lookup : list string → list row) (item_codes : list item_code)
  : string * list string * gmap string info_value :=
  match item_codes with
  | [] => ("sales", [], empty_mapping_info)
  | _ =>
    let cleaned_codes := clean_codes item_codes in
    match cleaned_codes with
    | [] => ("sales", [], empty_mapping_info)
    | _ =>
      let found_codes := lookup cleaned_codes in
      let st := build_mappings found_codes in
      let unmapped_codes := track_unmapped (found_code_set st) cleaned_codes in
      let '(order_type, categories) := decide_order_type (categories_found st) in
      let mapping_info : gmap string info_value :=
        <["mapped" := VDict (code_to_category st)]>
          (<["unmapped" := VList unmapped_codes]>
             (<["categories_found" := VList categories]> ∅)) in
      (order_type, categories, mapping_info)
    end
  end.

(** [get_mixed_order_status_display] *)
Definition get_mixed_order_status_display
    (order_type : string) (categories : list string) : string :=
  if bool_decide (order_type = "mixed") && bool_decide (categories ≠ []) then
    let formatted_categories := PyStr.join ", " (PyStr.title <$> categories) in
    "Mixed (" +:+ formatted_categories +:+ ")"
  else if bool_decide (order_type = "labour") then "Labour"
  else if bool_decide (order_type = "service") then "Service"
  else if bool_decide (order_type = "sales") then "Sales"
  else if bool_decide (order_type = "inquiry") then "Inquiry"
  else PyStr.title order_type.

(** Projections of the returned triple. *)
Definition order_type_of (r : string * list string * gmap string info_value) : string := r.1.1.
Definition categories_of (r : string * list string * gmap string info_value) : list string := r.1.2.
Definition mapping_info_of (r : string * list string * gmap string info_value)
  : gmap string info_value := r.2.

(** ** The lookup of the scenario of the design document *)

Definition scenario_lookup (codes : list string) : list row :=
  LabourCode_filter
    [ {| code := "LAB01"; category := "labour"; is_active := true |};
      {| code := "TYR02"; category := "tyre service"; is_active := false |} ]
    codes.

(** The item codes of the scenario of the design document. *)
Definition scenario_items : list item_code :=
  [PyString "LAB01"; PyString ""; PyString "TYR02"; PyString "LAB01"].

(** ** Definitions used in the statements *)

(** The distinct categories among the rows of a lookup result. *)
Definition categories_of_rows (rows : list row) : gset string :=
  list_to_set (row_category <$> rows).

(** The codes among the rows of a lookup result. *)
Definition codes_of_rows (rows : list row) : gset string :=
  list_to_set (row_code <$> rows).

(** The result on the main path, past the two early exits. *)
Definition main_path (rows : list row) (cleaned_codes : list string)
  : string * list string * gmap string info_value :=
  let st := build_mappings rows in
  let d := decide_order_type (categories_found st) in
  (d.1, d.2,
   <["mapped" := VDict (code_to_category st)]>
     (<["unmapped" := VList (track_unmapped (found_code_set st) cleaned_codes)]>
        (<["categories_found" := VList d.2]> ∅))).

(** A table with one active labour code and one inactive code. *)
Definition labour_table : list LabourCode :=
  [ {| code := "LAB01"; category := "labour"; is_active := true |};
    {| code := "OLD09"; category := "tyre service"; is_active := false |} ].

(** * Properties *)

(** ** Examples *)

Example lower_ex : PyStr.lower "Tyre Service / MAKILL" = "tyre service / makill".
Proof. reflexivity. Qed.

Example strip_ex : PyStr.strip "  LAB 01	 " = "LAB 01".
Proof. reflexivity. Qed.

Example title_ex : PyStr.title "tyre service" = "Tyre Service".
Proof. reflexivity. Qed.

Example title_ex2 : PyStr.title "o'neil x1y ABC" = "O'Neil X1Y Abc".
Proof. reflexivity. Qed.

Example contains_ex : PyStr.contains "tyre" "new tyres" = true.
Proof. reflexivity. Qed.

Example sorted_ex :
  PyStr.sorted ["tyre service"; "labour"; "Labour"] = ["Labour"; "labour"; "tyre service"].
Proof. reflexivity. Qed.

Example scenario :
  determine_order_type_from_codes scenario_lookup scenario_items
  = ("labour", ["labour"],
     <["mapped" := VDict {["LAB01" := "labour"]}]>
       (<["unmapped" := VList ["TYR02"]]>
          (<["categories_found" := VList ["labour"]]> ∅))).
Proof. vm_compute. reflexivity. Qed.

Example display_ex :
  get_mixed_order_status_display "mixed" ["labour"; "tyre service"]
  = "Mixed (Labour, Tyre Service)".
Proof. reflexivity. Qed.

(** ** Facts about the loop over the rows *)

Section loop.

Lemma foldl_add_row_categories rows st :
  categories_found (foldl add_row st rows)
  = categories_of_rows rows ∪ categories_found st.
Proof.
  revert st. induction rows as [|r rows IH]; intros st; simpl.
  - unfold categories_of_rows. simpl. set_solver.
  - rewrite IH. unfold categories_of_rows. simpl. set_solver.
Qed.

Lemma foldl_add_row_found rows st :
  found_code_set (foldl add_row st rows)
  = codes_of_rows rows ∪ found_code_set st.
Proof.
  revert st. induction rows as [|r rows IH]; intros st; simpl.
  - unfold codes_of_rows. simpl. set_solver.
  - rewrite IH. unfold codes_of_rows. simpl. set_solver.
Qed.

Lemma foldl_add_row_dom rows st :
  dom (code_to_category (foldl add_row st rows))
  = codes_of_rows rows ∪ dom (code_to_category st).
Proof.
  revert st. induction rows as [|r rows IH]; intros st; simpl.
  - unfold codes_of_rows. simpl. set_solver.
  - rewrite IH. unfold codes_of_rows. simpl. rewrite dom_insert_L. set_solver.
Qed.

Lemma build_mappings_categories rows :
  categories_found (build_mappings rows) = categories_of_rows rows.
Proof. unfold build_mappings. rewrite foldl_add_row_categories. simpl. set_solver. Qed.

Lemma build_mappings_found rows :
  found_code_set (build_mappings rows) = codes_of_rows rows.
Proof. unfold build_mappings. rewrite foldl_add_row_found. simpl. set_solver. Qed.

Lemma build_mappings_dom rows :
  dom (code_to_category (build_mappings rows)) = codes_of_rows rows.
Proof. unfold build_mappings. rewrite foldl_add_row_dom. simpl. set_solver. Qed.

Lemma categories_of_rows_perm rows rows' :
  rows ≡ₚ rows' → categories_of_rows rows = categories_of_rows rows'.
Proof.
  intros Hp. unfold categories_of_rows. apply set_eq. intros c.
  rewrite !elem_of_list_to_set. by rewrite Hp.
Qed.

End loop.

(** ** The shape of the result *)

Lemma determine_main_path lookup item_codes :
  clean_codes item_codes ≠ [] →
  determine_order_type_from_codes lookup item_codes
  = main_path (lookup (clean_codes item_codes)) (clean_codes item_codes).
Proof.
  intros Hne. unfold determine_order_type_from_codes, main_path.
  destruct item_codes as [|i item_codes]; [done|].
  destruct (clean_codes (i :: item_codes)) as [|c cs] eqn:Hc; [done|].
  by destruct (decide_order_type _).
Qed.

Lemma determine_early_exit lookup item_codes :
  clean_codes item_codes = [] →
  determine_order_type_from_codes lookup item_codes
  = ("sales", [], empty_mapping_info).
Proof.
  intros He. unfold determine_order_type_from_codes.
  destruct item_codes; [done|]. by rewrite He.
Qed.

Lemma clean_codes_app l1 l2 :
  clean_codes (l1 ++ l2) = clean_codes l1 ++ clean_codes l2.
Proof. unfold clean_codes. by rewrite filter_app, fmap_app. Qed.

Lemma clean_codes_all_falsy item_codes :
  Forall (λ code, truthy code = false) item_codes → clean_codes item_codes = [].
Proof.
  induction 1 as [|c l Hc _ IH]; [done|].
  unfold clean_codes in *. rewrite filter_cons_False; [done|congruence].
Qed.

Lemma elem_of_clean_codes s item_codes :
  s ∈ clean_codes item_codes
  ↔ ∃ code, code ∈ item_codes ∧ truthy code = true ∧ s = PyStr.strip (str code).
Proof.
  unfold clean_codes. rewrite list_elem_of_fmap. split.
  - intros (c & -> & Hc). apply list_elem_of_filter in Hc as [? ?]. eauto.
  - intros (c & ? & ? & ->). exists c. split; [done|].
    by apply list_elem_of_filter.
Qed.

Lemma decide_order_type_cases X :
  (decide_order_type X).1 = "sales"
  ∨ (decide_order_type X).1 = "labour"
  ∨ (decide_order_type X).1 = "service"
  ∨ (decide_order_type X).1 = "mixed".
Proof.
  unfold decide_order_type. repeat case_bool_decide; simpl; auto.
  unfold _normalize_category_to_order_type.
  destruct (negb _); [auto|].
  case_bool_decide; [auto|].
  destruct (_ || _); auto.
Qed.

Lemma decide_order_type_singleton c :
  decide_order_type {[c]} = (_normalize_category_to_order_type c, [c]).
Proof.
  unfold decide_order_type.
  rewrite bool_decide_eq_false_2 by set_solver.
  rewrite bool_decide_eq_true_2 by apply size_singleton.
  by rewrite elements_singleton.
Qed.

(** ** The degenerate input *)

(** C1. On an input list that is empty or whose entries are all falsy, the
    function returns the order type ['sales'], no categories, and the dict
    of the early exits, which holds ['mapped'] and ['unmapped'] only: the
    key ['categories_found'] that the main path sets is absent from it. *)
Theorem degenerate_input_mapping_info lookup item_codes :
  Forall (λ code, truthy code = false) item_codes →
  determine_order_type_from_codes lookup item_codes
  = ("sales", [], empty_mapping_info)
  ∧ empty_mapping_info !! "mapped" = Some (VDict ∅)
  ∧ empty_mapping_info !! "unmapped" = Some (VList [])
  ∧ empty_mapping_info !! "categories_found" = None.
Proof.
  intros Hf. split.
  - apply determine_early_exit. by apply clean_codes_all_falsy.
  - by vm_compute.
Qed.

Lemma degenerate_input_mapping_info_witness :
  determine_order_type_from_codes (λ _, [Row "" "labour"]) [PyNone; PyString ""]
  = ("sales", [], empty_mapping_info)
  ∧ empty_mapping_info !! "mapped" = Some (VDict ∅)
  ∧ empty_mapping_info !! "unmapped" = Some (VList [])
  ∧ empty_mapping_info !! "categories_found" = None.
Proof.
  apply (degenerate_input_mapping_info (λ _, [Row "" "labour"]) [PyNone; PyString ""]).
  repeat constructor.
Defined.

(** ** Normalisation of the codes *)

(** C2. An entry that consists of white space only is truthy, so the
    comprehension keeps it and strips it to the empty string: the empty
    string is then a cleaned code, is looked up, and is listed in
    ['unmapped'] when the lookup does not know it. *)
Theorem whitespace_entry_is_kept :
  clean_codes [PyString "  "] = [""]
  ∧ clean_codes [PyString "LAB01"; PyString " 	"; PyNone; PyString ""] = ["LAB01"; ""]
  ∧ determine_order_type_from_codes (λ _, []) [PyString "  "]
    = ("sales", [],
       <["mapped" := VDict ∅]>
         (<["unmapped" := VList [""]]>
            (<["categories_found" := VList []]> ∅))).
Proof. by vm_compute. Qed.

(** ** The order type *)

(** C8. The order type that the function returns is one of ['labour'],
    ['service'], ['sales'] and ['mixed'], for every input list and every
    lookup; it is never ['inquiry']. *)
Theorem order_type_closed lookup item_codes :
  order_type_of (determine_order_type_from_codes lookup item_codes)
    ∈ ["labour"; "service"; "sales"; "mixed"]
  ∧ order_type_of (determine_order_type_from_codes lookup item_codes) ≠ "inquiry".
Proof.
  assert (Hc : order_type_of (determine_order_type_from_codes lookup item_codes) = "sales"
               ∨ order_type_of (determine_order_type_from_codes lookup item_codes) = "labour"
               ∨ order_type_of (determine_order_type_from_codes lookup item_codes) = "service"
               ∨ order_type_of (determine_order_type_from_codes lookup item_codes) = "mixed").
  { destruct (decide (clean_codes item_codes = [])) as [He|Hne].
    - rewrite determine_early_exit by done. by left.
    - rewrite determine_main_path by done. apply decide_order_type_cases. }
  destruct Hc as [-> | [-> | [-> | ->]]]; split; try done; set_solver.
Qed.

(** C9. When the cleaned code list is not empty, the ['categories_found']
    field of [mapping_info] holds the very list returned as second
    component: the list of the branch that decided the order type, built
    from the set of categories among the rows, not that set itself. *)
Theorem categories_found_is_categories lookup item_codes :
  clean_codes item_codes ≠ [] →
  let r := determine_order_type_from_codes lookup item_codes in
  mapping_info_of r !! "categories_found" = Some (VList (categories_of r))
  ∧ categories_of r
    = (decide_order_type
         (categories_of_rows (lookup (clean_codes item_codes)))).2.
Proof.
  intros Hne r. subst r. rewrite determine_main_path by done.
  unfold main_path, mapping_info_of, categories_of. simpl.
  rewrite build_mappings_categories. split; [|done].
  by rewrite lookup_insert_ne, lookup_insert_ne, lookup_insert_eq.
Qed.

Lemma categories_found_is_categories_witness :
  let r := determine_order_type_from_codes
             (λ _, [Row "T1" "tyre service"; Row "L1" "labour"])
             [PyString "T1"; PyString "L1"] in
  mapping_info_of r !! "categories_found" = Some (VList (categories_of r))
  ∧ categories_of r
    = (decide_order_type
         (categories_of_rows [Row "T1" "tyre service"; Row "L1" "labour"])).2.
Proof.
  apply (categories_found_is_categories
           (λ _, [Row "T1" "tyre service"; Row "L1" "labour"])
           [PyString "T1"; PyString "L1"]).
  vm_compute. discriminate.
Defined.

(** C10. If the rows of the lookup carry exactly one category and it is
    the empty string, the function returns ['sales'] with the categories
    list [['']]: a ['sales'] result can come with a non-empty list. *)
Theorem empty_category_gives_sales lookup item_codes :
  clean_codes item_codes ≠ [] →
  categories_of_rows (lookup (clean_codes item_codes)) = {[""]} →
  let r := determine_order_type_from_codes lookup item_codes in
  order_type_of r = "sales" ∧ categories_of r = [""] ∧ categories_of r ≠ [].
Proof.
  intros Hne Hc r. subst r. rewrite determine_main_path by done.
  unfold main_path, order_type_of, categories_of. simpl.
  rewrite build_mappings_categories, Hc, decide_order_type_singleton.
  by vm_compute.
Qed.

Lemma empty_category_gives_sales_witness :
  let r := determine_order_type_from_codes (λ _, [Row "MISC" ""]) [PyString "MISC"] in
  order_type_of r = "sales" ∧ categories_of r = [""] ∧ categories_of r ≠ [].
Proof.
  apply (empty_category_gives_sales (λ _, [Row "MISC" ""]) [PyString "MISC"]).
  - vm_compute. discriminate.
  - vm_compute. reflexivity.
Defined.

(** ** The display string *)

(** C7. The display of a mixed order with the categories ['labour'] and
    ['tyre service'] is ['Mixed (Labour, Tyre Service)']; for the order
    types ['labour'], ['service'], ['sales'] and ['inquiry'] the display is
    the fixed word, whatever the categories. *)
Theorem display_fixed_words :
  get_mixed_order_status_display "mixed" ["labour"; "tyre service"]
  = "Mixed (Labour, Tyre Service)"
  ∧ ∀ categories,
      get_mixed_order_status_display "labour" categories = "Labour"
      ∧ get_mixed_order_status_display "service" categories = "Service"
      ∧ get_mixed_order_status_display "sales" categories = "Sales"
      ∧ get_mixed_order_status_display "inquiry" categories = "Inquiry".
Proof. split; [reflexivity|]. intros categories. repeat split. Qed.

(** ** The order on strings and [sorted] *)

Section string_order.

Lemma ascii_compare_refl c : Ascii.compare c c = Eq.
Proof. apply N.compare_refl. Qed.

Lemma ascii_compare_lt_trans a b c :
  Ascii.compare a b = Lt → Ascii.compare b c = Lt → Ascii.compare a c = Lt.
Proof.
  unfold Ascii.compare. rewrite !N.compare_lt_iff. apply N.lt_trans.
Qed.

#[global] Instance PyStr_le_total : Total PyStr.le.
Proof. intros s1 s2. apply String.leb_total. Qed.

#[global] Instance PyStr_le_trans : Transitive PyStr.le.
Proof.
  unfold PyStr.le, String.leb. intros s1.
  induction s1 as [|a s1 IH]; intros [|b s2] [|c s3]; simpl; try done.
  destruct (Ascii.compare a b) eqn:Hab; [| |done].
  - apply Ascii.compare_eq_iff in Hab as ->.
    destruct (Ascii.compare b c); [|done..]. apply IH.
  - intros _. destruct (Ascii.compare b c) eqn:Hbc; [| |done].
    + apply Ascii.compare_eq_iff in Hbc as ->. by rewrite Hab.
    + by rewrite (ascii_compare_lt_trans a b c).
Qed.

#[global] Instance PyStr_le_antisym : AntiSymm (=) PyStr.le.
Proof. intros s1 s2. apply String.leb_antisym. Qed.

Lemma sorted_perm l : PyStr.sorted l ≡ₚ l.
Proof. apply merge_sort_Permutation. Qed.

Lemma sorted_strongly_sorted l : StronglySorted PyStr.le (PyStr.sorted l).
Proof. apply StronglySorted_merge_sort; apply _. Qed.

(** The sorted list depends on the elements only, not on their order. *)
Lemma sorted_unique l1 l2 : l1 ≡ₚ l2 → PyStr.sorted l1 = PyStr.sorted l2.
Proof.
  intros Hp. apply (StronglySorted_unique PyStr.le).
  - apply sorted_strongly_sorted.
  - apply sorted_strongly_sorted.
  - by rewrite !sorted_perm.
Qed.

End string_order.

(** ** Two or more categories *)

Lemma decide_order_type_mixed X :
  2 ≤ size X → decide_order_type X = ("mixed", PyStr.sorted (elements X)).
Proof.
  intros Hs. unfold decide_order_type.
  rewrite bool_decide_eq_false_2.
  - rewrite bool_decide_eq_false_2; [done|lia].
  - intros ->. rewrite size_empty in Hs. lia.
Qed.

(** C5. When the rows of the lookup carry two or more distinct
    categories, the order type is ['mixed'] and the categories list holds
    exactly the distinct categories, each once, in ascending
    lexicographic order of the character codes; rows in another order give
    the same list. *)
Theorem mixed_categories_sorted lookup item_codes :
  clean_codes item_codes ≠ [] →
  2 ≤ size (categories_of_rows (lookup (clean_codes item_codes))) →
  let r := determine_order_type_from_codes lookup item_codes in
  order_type_of r = "mixed"
  ∧ StronglySorted PyStr.le (categories_of r)
  ∧ NoDup (categories_of r)
  ∧ (∀ c, c ∈ categories_of r
          ↔ c ∈ row_category <$> lookup (clean_codes item_codes))
  ∧ (∀ l, StronglySorted PyStr.le l →
          l ≡ₚ elements (categories_of_rows (lookup (clean_codes item_codes))) →
          l = categories_of r)
  ∧ (∀ rows', rows' ≡ₚ lookup (clean_codes item_codes) →
       categories_of (determine_order_type_from_codes (λ _, rows') item_codes)
       = categories_of r).
Proof.
  intros Hne Hs r. subst r. rewrite determine_main_path by done.
  unfold main_path, order_type_of, categories_of. simpl.
  rewrite build_mappings_categories, decide_order_type_mixed by done. simpl.
  split_and!.
  - done.
  - apply sorted_strongly_sorted.
  - rewrite sorted_perm. apply NoDup_elements.
  - intros c. rewrite sorted_perm, elem_of_elements.
    unfold categories_of_rows. by rewrite elem_of_list_to_set.
  - intros l Hl Hp. apply (StronglySorted_unique PyStr.le); try done.
    + apply sorted_strongly_sorted.
    + by rewrite sorted_perm.
  - intros rows' Hp. rewrite determine_main_path by done. simpl.
    rewrite build_mappings_categories.
    by rewrite (categories_of_rows_perm _ _ Hp), decide_order_type_mixed.
Qed.

Lemma mixed_categories_sorted_witness :
  let lookup := λ _ : list string,
    [Row "T1" "tyre service"; Row "L1" "labour"; Row "L2" "Labour"] in
  let item_codes := [PyString "T1"; PyString "L1"; PyString "L2"] in
  let r := determine_order_type_from_codes lookup item_codes in
  order_type_of r = "mixed"
  ∧ StronglySorted PyStr.le (categories_of r)
  ∧ NoDup (categories_of r)
  ∧ (∀ c, c ∈ categories_of r
          ↔ c ∈ row_category <$> lookup (clean_codes item_codes))
  ∧ (∀ l, StronglySorted PyStr.le l →
          l ≡ₚ elements (categories_of_rows (lookup (clean_codes item_codes))) →
          l = categories_of r)
  ∧ (∀ rows', rows' ≡ₚ lookup (clean_codes item_codes) →
       categories_of (determine_order_type_from_codes (λ _, rows') item_codes)
       = categories_of r).
Proof.
  apply (mixed_categories_sorted
           (λ _, [Row "T1" "tyre service"; Row "L1" "labour"; Row "L2" "Labour"])
           [PyString "T1"; PyString "L1"; PyString "L2"]).
  - vm_compute. discriminate.
  - vm_compute. lia.
Defined.

Example mixed_ex :
  determine_order_type_from_codes
    (λ _, [Row "T1" "tyre service"; Row "L1" "labour"; Row "L2" "Labour"])
    [PyString "T1"; PyString "L1"; PyString "L2"]
  = ("mixed", ["Labour"; "labour"; "tyre service"],
     <["mapped" := VDict (<["T1" := "tyre service"]>
                            (<["L1" := "labour"]> {["L2" := "Labour"]}))]>
       (<["unmapped" := VList []]>
          (<["categories_found" := VList ["Labour"; "labour"; "tyre service"]]> ∅))).
Proof. vm_compute. reflexivity. Qed.

(** ** Mapped and unmapped codes *)

(** C3, as stated, fails on the scenario of the design document: the
    code ['LAB01'] is known to the lookup and listed twice, it is one key
    of ['mapped'], so the keys of ['mapped'] with ['unmapped'] hold two
    codes where the cleaned list holds three. *)
Lemma partition_multiset_counterexample :
  clean_codes scenario_items = ["LAB01"; "TYR02"; "LAB01"]
  ∧ (∀ r, r ∈ scenario_lookup (clean_codes scenario_items) →
          row_code r ∈ clean_codes scenario_items)
  ∧ ∃ mapped unmapped,
      mapping_info_of
        (determine_order_type_from_codes scenario_lookup scenario_items)
        !! "mapped" = Some (VDict mapped)
      ∧ mapping_info_of
          (determine_order_type_from_codes scenario_lookup scenario_items)
          !! "unmapped" = Some (VList unmapped)
      ∧ elements (dom mapped) = ["LAB01"]
      ∧ unmapped = ["TYR02"]
      ∧ ¬ (elements (dom mapped) ++ unmapped ≡ₚ clean_codes scenario_items).
Proof.
  split_and!.
  - vm_compute. reflexivity.
  - intros r Hr. vm_compute in Hr.
    apply list_elem_of_singleton in Hr as ->. vm_compute. left.
  - exists (<["LAB01" := "labour"]> ∅), ["TYR02"]. split_and!.
    + vm_compute. reflexivity.
    + vm_compute. reflexivity.
    + vm_compute. reflexivity.
    + reflexivity.
    + intros Hp. apply Permutation_length in Hp. vm_compute in Hp. discriminate.
Qed.

(** C3, amended. On the main path, when every code of the lookup result
    is a cleaned code: the keys of ['mapped'] and the codes of ['unmapped']
    are together the cleaned codes, as sets; no code is in both;
    ['unmapped'] is the cleaned list without the mapped codes, in the
    original order and with its duplicates, so that the cleaned list is, as
    a multiset, its occurrences of mapped codes together with ['unmapped'];
    and when no mapped code occurs twice in the cleaned list, the keys of
    ['mapped'] with ['unmapped'] are the cleaned list as a multiset. *)
Theorem mapped_unmapped_partition lookup item_codes :
  clean_codes item_codes ≠ [] →
  (∀ r, r ∈ lookup (clean_codes item_codes) →
        row_code r ∈ clean_codes item_codes) →
  let info := mapping_info_of (determine_order_type_from_codes lookup item_codes) in
  let cleaned_codes := clean_codes item_codes in
  ∃ mapped unmapped,
    info !! "mapped" = Some (VDict mapped)
    ∧ info !! "unmapped" = Some (VList unmapped)
    ∧ (∀ c, c ∈ cleaned_codes ↔ c ∈ dom mapped ∨ c ∈ unmapped)
    ∧ (∀ c, c ∈ dom mapped → c ∉ unmapped)
    ∧ unmapped = filter (λ c, c ∉ dom mapped) cleaned_codes
    ∧ unmapped `sublist_of` cleaned_codes
    ∧ cleaned_codes ≡ₚ filter (λ c, c ∈ dom mapped) cleaned_codes ++ unmapped
    ∧ (NoDup (filter (λ c, c ∈ dom mapped) cleaned_codes) →
       elements (dom mapped) ++ unmapped ≡ₚ cleaned_codes).
Proof.
  intros Hne Hin info cleaned_codes. subst info cleaned_codes.
  rewrite determine_main_path by done.
  unfold main_path, mapping_info_of. simpl.
  set (cleaned := clean_codes item_codes) in *.
  set (rows := lookup cleaned) in *.
  exists (code_to_category (build_mappings rows)),
         (track_unmapped (found_code_set (build_mappings rows)) cleaned).
  rewrite build_mappings_dom, build_mappings_found. unfold track_unmapped.
  assert (Hsub : ∀ c, c ∈ codes_of_rows rows → c ∈ cleaned).
  { intros c. unfold codes_of_rows. rewrite elem_of_list_to_set, list_elem_of_fmap.
    intros (r & -> & Hr). by apply Hin. }
  assert (Hperm : cleaned ≡ₚ filter (λ c, c ∈ codes_of_rows rows) cleaned
                             ++ filter (λ c, c ∉ codes_of_rows rows) cleaned).
  { symmetry. apply filter_app_complement. }
  split_and!.
  - by rewrite lookup_insert_eq.
  - by rewrite lookup_insert_ne, lookup_insert_eq.
  - intros c. rewrite list_elem_of_filter. split.
    + intros Hc. destruct (decide (c ∈ codes_of_rows rows)); auto.
    + intros [Hc | [_ Hc]]; auto.
  - intros c Hc. rewrite list_elem_of_filter. tauto.
  - done.
  - apply sublist_filter.
  - done.
  - intros Hnd. etrans; [|symmetry; apply Hperm]. f_equiv.
    apply NoDup_Permutation; [apply NoDup_elements|done|].
    intros c. rewrite elem_of_elements, list_elem_of_filter. naive_solver.
Qed.

Lemma mapped_unmapped_partition_witness :
  let info := mapping_info_of
                (determine_order_type_from_codes scenario_lookup
                   [PyString "LAB01"; PyString ""; PyString "TYR02"; PyString "TYR02"]) in
  let cleaned_codes :=
    clean_codes [PyString "LAB01"; PyString ""; PyString "TYR02"; PyString "TYR02"] in
  ∃ mapped unmapped,
    info !! "mapped" = Some (VDict mapped)
    ∧ info !! "unmapped" = Some (VList unmapped)
    ∧ (∀ c, c ∈ cleaned_codes ↔ c ∈ dom mapped ∨ c ∈ unmapped)
    ∧ (∀ c, c ∈ dom mapped → c ∉ unmapped)
    ∧ unmapped = filter (λ c, c ∉ dom mapped) cleaned_codes
    ∧ unmapped `sublist_of` cleaned_codes
    ∧ cleaned_codes ≡ₚ filter (λ c, c ∈ dom mapped) cleaned_codes ++ unmapped
    ∧ (NoDup (filter (λ c, c ∈ dom mapped) cleaned_codes) →
       elements (dom mapped) ++ unmapped ≡ₚ cleaned_codes).
Proof.
  apply (mapped_unmapped_partition scenario_lookup
           [PyString "LAB01"; PyString ""; PyString "TYR02"; PyString "TYR02"]).
  - vm_compute. discriminate.
  - intros r Hr. vm_compute in Hr.
    apply list_elem_of_singleton in Hr as ->. vm_compute. left.
Defined.

(** ** Unmapped codes and the order type *)

Lemma LabourCode_filter_ext table codes codes' :
  (∀ e, e ∈ table → is_active e = true → code e ∈ codes ↔ code e ∈ codes') →
  LabourCode_filter table codes = LabourCode_filter table codes'.
Proof.
  unfold LabourCode_filter. intros Hext. f_equal.
  induction table as [|e table IH]; [done|].
  rewrite !filter_cons.
  rewrite IH by (intros e' He'; apply Hext; by right).
  specialize (Hext e (list_elem_of_here _ _)).
  repeat case_decide; naive_solver.
Qed.

Lemma LabourCode_filter_nil table : LabourCode_filter table [] = [].
Proof.
  unfold LabourCode_filter. induction table as [|e table IH]; [done|].
  rewrite filter_cons_False; [done|]. intros [He _]. by apply not_elem_of_nil in He.
Qed.

(** The order type when the rows carry one category. *)
Lemma one_category_order_type lookup item_codes cat :
  clean_codes item_codes ≠ [] →
  categories_of_rows (lookup (clean_codes item_codes)) = {[cat]} →
  order_type_of (determine_order_type_from_codes lookup item_codes)
  = _normalize_category_to_order_type cat.
Proof.
  intros Hne Hc. rewrite determine_main_path by done.
  unfold main_path, order_type_of. simpl.
  by rewrite build_mappings_categories, Hc, decide_order_type_singleton.
Qed.

(** C4. When the table recognises exactly one category among the codes of
    an invoice, codes that the table does not know, in any number and at
    any place of the list, leave the order type as it is: the order type
    of that one category. With the one category ['labour'] the order type
    stays ['labour'] and is not ['mixed']. *)
Theorem unmapped_codes_keep_order_type table before extra after cat :
  (∀ e, e ∈ table → is_active e = true → code e ∉ clean_codes extra) →
  categories_of_rows (LabourCode_filter table (clean_codes (before ++ after)))
  = {[cat]} →
  order_type_of
    (determine_order_type_from_codes (LabourCode_filter table)
       (before ++ extra ++ after))
  = order_type_of
      (determine_order_type_from_codes (LabourCode_filter table) (before ++ after))
  ∧ order_type_of
      (determine_order_type_from_codes (LabourCode_filter table)
         (before ++ extra ++ after))
    = _normalize_category_to_order_type cat
  ∧ (cat = "labour" →
     order_type_of
       (determine_order_type_from_codes (LabourCode_filter table)
          (before ++ extra ++ after))
     = "labour").
Proof.
  intros Hun Hc.
  assert (Hne : clean_codes (before ++ after) ≠ []).
  { intros He. rewrite He, LabourCode_filter_nil in Hc.
    unfold categories_of_rows in Hc. simpl in Hc.
    assert (cat ∈ (∅ : gset string)) by (rewrite Hc; set_solver).
    set_solver. }
  assert (Hrows : LabourCode_filter table (clean_codes (before ++ extra ++ after))
                  = LabourCode_filter table (clean_codes (before ++ after))).
  { apply LabourCode_filter_ext. intros e He Ha.
    rewrite !clean_codes_app, !elem_of_app. specialize (Hun e He Ha). tauto. }
  assert (Hne' : clean_codes (before ++ extra ++ after) ≠ []).
  { intros He. apply Hne. rewrite !clean_codes_app in *.
    apply app_eq_nil in He as [-> He]. by apply app_eq_nil in He as [_ ->]. }
  assert (Hwith : order_type_of
                    (determine_order_type_from_codes (LabourCode_filter table)
                       (before ++ extra ++ after))
                  = _normalize_category_to_order_type cat).
  { apply one_category_order_type; [done|]. by rewrite Hrows. }
  split_and!.
  - rewrite Hwith. symmetry. by apply one_category_order_type.
  - done.
  - intros ->. by rewrite Hwith.
Qed.

Lemma unmapped_codes_keep_order_type_witness :
  order_type_of
    (determine_order_type_from_codes (LabourCode_filter labour_table)
       ([PyString "LAB01"] ++ [PyString "XYZ"; PyString "OLD09"] ++ []))
  = order_type_of
      (determine_order_type_from_codes (LabourCode_filter labour_table)
         ([PyString "LAB01"] ++ []))
  ∧ order_type_of
      (determine_order_type_from_codes (LabourCode_filter labour_table)
         ([PyString "LAB01"] ++ [PyString "XYZ"; PyString "OLD09"] ++ []))
    = _normalize_category_to_order_type "labour"
  ∧ ("labour" = "labour" →
     order_type_of
       (determine_order_type_from_codes (LabourCode_filter labour_table)
          ([PyString "LAB01"] ++ [PyString "XYZ"; PyString "OLD09"] ++ []))
     = "labour").
Proof.
  apply (unmapped_codes_keep_order_type labour_table
           [PyString "LAB01"] [PyString "XYZ"; PyString "OLD09"] [] "labour").
  - intros e He Ha. unfold labour_table in He.
    apply elem_of_cons in He as [-> | He].
    + vm_compute. intros Hin. apply elem_of_cons in Hin as [Hin | Hin]; [done|].
      apply list_elem_of_singleton in Hin. done.
    + apply list_elem_of_singleton in He as ->. done.
  - vm_compute. reflexivity.
Defined.

Example labour_with_unmapped :
  determine_order_type_from_codes (LabourCode_filter labour_table)
    [PyString "LAB01"; PyString "XYZ"]
  = ("labour", ["labour"],
     <["mapped" := VDict {["LAB01" := "labour"]}]>
       (<["unmapped" := VList ["XYZ"]]>
          (<["categories_found" := VList ["labour"]]> ∅))).
Proof. vm_compute. reflexivity. Qed.

(** ** Substrings, [lower] and [strip] *)

Section string_facts.

Lemma app_cons c a b : String c a +:+ b = String c (a +:+ b).
Proof. reflexivity. Qed.

Lemma app_empty_l b : "" +:+ b = b.
Proof. reflexivity. Qed.

Lemma app_empty_r a : a +:+ "" = a.
Proof. induction a as [|c a IH]; [done|]. by rewrite app_cons, IH. Qed.

Lemma app_assoc a b c : (a +:+ b) +:+ c = a +:+ (b +:+ c).
Proof. induction a as [|x a IH]; [done|]. by rewrite !app_cons, IH. Qed.

Lemma prefix_spec sub s :
  String.prefix sub s = true ↔ ∃ b, s = sub +:+ b.
Proof.
  revert s. induction sub as [|x sub IH]; intros s.
  - split; [intros _; by exists s|intros _; by destruct s].
  - destruct s as [|y s]; simpl.
    + split; [done|]. by intros [b Hb].
    + destruct (ascii_dec x y) as [->|Hxy].
      * rewrite IH. split; intros [b Hb]; exists b.
        -- by rewrite app_cons, Hb.
        -- rewrite app_cons in Hb. by simplify_eq.
      * split; [done|]. intros [b Hb]. rewrite app_cons in Hb. by simplify_eq.
Qed.

Lemma contains_spec sub s :
  PyStr.contains sub s = true ↔ ∃ a b, s = a +:+ sub +:+ b.
Proof.
  induction s as [|c s IH].
  - unfold PyStr.contains. rewrite orb_false_r, prefix_spec. split.
    + intros [b Hb]. by exists "", b.
    + intros (a & b & Hab). destruct a; [by exists b|done].
  - change (PyStr.contains sub (String c s))
      with (String.prefix sub (String c s) || PyStr.contains sub s).
    rewrite orb_true_iff, prefix_spec, IH. split.
    + intros [[b Hb] | (a & b & Hab)].
      * by exists "", b.
      * exists (String c a), b. by rewrite app_cons, Hab.
    + intros (a & b & Hab). destruct a as [|x a].
      * left. by exists b.
      * right. rewrite app_cons in Hab. simplify_eq. by exists a, b.
Qed.

Lemma lower_app a b : PyStr.lower (a +:+ b) = PyStr.lower a +:+ PyStr.lower b.
Proof. induction a as [|c a IH]; [done|]. rewrite app_cons. simpl. by rewrite IH. Qed.

Lemma lstrip_prefix s : ∃ ws, s = ws +:+ PyStr.lstrip s.
Proof.
  induction s as [|c s [ws IH]]; [by exists ""|]. simpl.
  destruct (PyStr.is_space c).
  - exists (String c ws). by rewrite app_cons, <- IH.
  - by exists "".
Qed.

Lemma rstrip_suffix s : ∃ ws, s = PyStr.rstrip s +:+ ws.
Proof.
  induction s as [|c s [ws IH]]; [by exists ""|]. simpl.
  destruct (PyStr.rstrip s) as [|x r].
  - destruct (PyStr.is_space c).
    + by exists (String c s).
    + exists ws. by rewrite app_cons, <- IH.
  - exists ws. by rewrite app_cons, <- IH.
Qed.

(** The stripped string is a part of the string. *)
Lemma contains_strip sub s :
  PyStr.contains sub (PyStr.strip s) = true → PyStr.contains sub s = true.
Proof.
  rewrite !contains_spec. intros (a & b & Hab).
  destruct (lstrip_prefix s) as [l Hl].
  destruct (rstrip_suffix (PyStr.lstrip s)) as [r Hr].
  fold (PyStr.strip s) in Hr. exists (l +:+ a), (b +:+ r).
  rewrite Hl at 1. rewrite Hr, Hab. by rewrite !app_assoc.
Qed.

Lemma lstrip_app_nonspace a c t :
  PyStr.is_space c = false →
  PyStr.lstrip (a +:+ String c t) = PyStr.lstrip a +:+ String c t.
Proof.
  intros Hc. induction a as [|x a IH].
  - rewrite app_empty_l. simpl. by rewrite Hc.
  - rewrite app_cons. simpl. by destruct (PyStr.is_space x).
Qed.

Lemma rstrip_app_nonspace a c t :
  PyStr.is_space c = false →
  PyStr.rstrip (a +:+ String c t) = a +:+ String c (PyStr.rstrip t).
Proof.
  intros Hc. induction a as [|x a IH].
  - rewrite !app_empty_l. simpl. rewrite Hc. by destruct (PyStr.rstrip t).
  - rewrite !app_cons. simpl. rewrite IH. by destruct a.
Qed.

(** A substring that begins and ends with a character other than white
    space is still there after [strip]. *)
Lemma contains_strip_keeps c1 m c2 s :
  PyStr.is_space c1 = false → PyStr.is_space c2 = false →
  PyStr.contains (String c1 (m +:+ String c2 "")) s = true →
  PyStr.contains (String c1 (m +:+ String c2 "")) (PyStr.strip s) = true.
Proof.
  intros H1 H2. rewrite !contains_spec. intros (a & b & ->).
  exists (PyStr.lstrip a), (PyStr.rstrip b). unfold PyStr.strip.
  rewrite !app_cons, lstrip_app_nonspace by done.
  rewrite !app_assoc, app_cons, app_empty_l.
  rewrite <- !app_cons, <- !app_assoc.
  rewrite rstrip_app_nonspace by done.
  by rewrite !app_assoc, !app_cons, !app_empty_l.
Qed.

Lemma contains_lower sub s :
  PyStr.contains sub s = true →
  PyStr.contains (PyStr.lower sub) (PyStr.lower s) = true.
Proof.
  rewrite !contains_spec. intros (a & b & ->).
  exists (PyStr.lower a), (PyStr.lower b). by rewrite !lower_app.
Qed.

Lemma strip_empty_inv s : PyStr.strip s ≠ "" → s ≠ "".
Proof. by intros Hs ->. Qed.

End string_facts.

(** ** The order type of one category *)

Lemma normalize_non_empty category :
  category ≠ "" →
  _normalize_category_to_order_type category
  = let category_lower := PyStr.strip (PyStr.lower category) in
    if bool_decide (category_lower = "labour") then "labour"
    else if PyStr.contains "tyre" category_lower
            || PyStr.contains "service" category_lower then "service"
    else "labour".
Proof. intros Hne. unfold _normalize_category_to_order_type. by destruct category. Qed.

(** A category with ['tyre'] or ['service'] in it, in any letter case. *)
Lemma normalize_service category :
  PyStr.contains "tyre" (PyStr.lower category) = true
  ∨ PyStr.contains "service" (PyStr.lower category) = true →
  _normalize_category_to_order_type category = "service".
Proof.
  intros Hc.
  assert (Hs : PyStr.contains "tyre" (PyStr.strip (PyStr.lower category)) = true
               ∨ PyStr.contains "service" (PyStr.strip (PyStr.lower category)) = true).
  { destruct Hc as [Hc | Hc]; [left | right].
    - by apply (contains_strip_keeps "t" "yr" "e").
    - by apply (contains_strip_keeps "s" "ervic" "e"). }
  rewrite normalize_non_empty.
  - simpl. rewrite bool_decide_eq_false_2.
    + by destruct Hs as [-> | ->]; [|rewrite orb_true_r].
    + intros Hl. rewrite Hl in Hs. by destruct Hs.
  - intros ->. by destruct Hc.
Qed.

(** C6, amended. The empty category gives ['sales']. A category that is not empty
    after trimming, whose lower-cased and trimmed form is not ['labour'],
    and that has neither ['tyre'] nor ['service'] in it, in any letter
    case, gives ['labour']. A category that has ['tyre'] or ['service'] in
    it, as written or in another letter case, gives ['service']. *)
Theorem normalize_category_rules category :
  (category = "" → _normalize_category_to_order_type category = "sales")
  ∧ (PyStr.strip category ≠ "" →
     PyStr.strip (PyStr.lower category) ≠ "labour" →
     PyStr.contains "tyre" (PyStr.lower category) = false →
     PyStr.contains "service" (PyStr.lower category) = false →
     _normalize_category_to_order_type category = "labour")
  ∧ (PyStr.contains "tyre" category = true
     ∨ PyStr.contains "service" category = true →
     _normalize_category_to_order_type category = "service")
  ∧ (PyStr.contains "tyre" (PyStr.lower category) = true
     ∨ PyStr.contains "service" (PyStr.lower category) = true →
     _normalize_category_to_order_type category = "service").
Proof.
  split_and!.
  - by intros ->.
  - intros Hne Hl Ht Hs.
    rewrite normalize_non_empty by by apply strip_empty_inv.
    simpl. rewrite bool_decide_eq_false_2 by done.
    destruct (PyStr.contains "tyre" (PyStr.strip (PyStr.lower category))) eqn:Ht'.
    { apply contains_strip in Ht'. congruence. }
    destruct (PyStr.contains "service" (PyStr.strip (PyStr.lower category))) eqn:Hs'.
    { apply contains_strip in Hs'. congruence. }
    done.
  - intros [Hc | Hc]; apply normalize_service; [left | right].
    + by apply (contains_lower "tyre").
    + by apply (contains_lower "service").
  - apply normalize_service.
Qed.

Lemma normalize_category_rules_witness :
  _normalize_category_to_order_type "" = "sales"
  ∧ _normalize_category_to_order_type " Wheel Alignment " = "labour"
  ∧ _normalize_category_to_order_type "tyre service / makill" = "service"
  ∧ _normalize_category_to_order_type "Full SERVICE" = "service".
Proof.
  split_and!.
  - by apply (normalize_category_rules "").
  - apply (normalize_category_rules " Wheel Alignment "); by vm_compute.
  - apply (normalize_category_rules "tyre service / makill"). left. by vm_compute.
  - apply (normalize_category_rules "Full SERVICE"). right. by vm_compute.
Defined.

(** C6, as stated, fails: the category ['TYRE'] is not empty after
    trimming, its lower-cased trimmed form is not ['labour'], and as it is
    written it contains neither ['tyre'] nor ['service']; the test is made
    on the lower-cased category, so its order type is ['service'], not
    ['labour']. *)
Lemma normalize_upper_case_counterexample :
  PyStr.strip "TYRE" ≠ ""
  ∧ PyStr.strip (PyStr.lower "TYRE") ≠ "labour"
  ∧ PyStr.contains "tyre" "TYRE" = false
  ∧ PyStr.contains "service" "TYRE" = false
  ∧ _normalize_category_to_order_type "TYRE" = "service"
  ∧ _normalize_category_to_order_type "TYRE" ≠ "labour".
Proof. by vm_compute. Qed.

Example normalize_labour : _normalize_category_to_order_type " Labour" = "labour".
Proof. reflexivity. Qed.

Example normalize_blank : _normalize_category_to_order_type "  " = "labour".
Proof. reflexivity. Qed.

(** * Further properties of the module *)

(** ** [lower], [strip] and [title], continued *)

Section string_case.

Lemma is_space_lower_char c : PyStr.is_space (PyStr.lower_char c) = PyStr.is_space c.
Proof. by destruct c as [[] [] [] [] [] [] [] []]. Qed.

Lemma lower_char_idemp c : PyStr.lower_char (PyStr.lower_char c) = PyStr.lower_char c.
Proof. by destruct c as [[] [] [] [] [] [] [] []]. Qed.

Lemma lower_idemp s : PyStr.lower (PyStr.lower s) = PyStr.lower s.
Proof. induction s as [|c s IH]; [done|]. simpl. by rewrite lower_char_idemp, IH. Qed.

Lemma lower_empty_iff s : PyStr.lower s = "" ↔ s = "".
Proof. by destruct s. Qed.

Lemma lstrip_lower s : PyStr.lstrip (PyStr.lower s) = PyStr.lower (PyStr.lstrip s).
Proof.
  induction s as [|c s IH]; [done|]. simpl. rewrite is_space_lower_char.
  by destruct (PyStr.is_space c).
Qed.

Lemma rstrip_lower s : PyStr.rstrip (PyStr.lower s) = PyStr.lower (PyStr.rstrip s).
Proof.
  induction s as [|c s IH]; [done|]. simpl. rewrite IH, is_space_lower_char.
  destruct (PyStr.rstrip s); simpl; [|done]. by destruct (PyStr.is_space c).
Qed.

Lemma strip_lower s : PyStr.strip (PyStr.lower s) = PyStr.lower (PyStr.strip s).
Proof. unfold PyStr.strip. by rewrite lstrip_lower, rstrip_lower. Qed.

(** What [lstrip] leaves does not begin with white space. *)
Lemma lstrip_head s :
  match PyStr.lstrip s with
  | EmptyString => True
  | String c _ => PyStr.is_space c = false
  end.
Proof.
  induction s as [|c s IH]; [done|]. simpl.
  destruct (PyStr.is_space c) eqn:Hc; done.
Qed.

Lemma rstrip_cons_nonspace c t :
  PyStr.is_space c = false → PyStr.rstrip (String c t) = String c (PyStr.rstrip t).
Proof. intros Hc. simpl. rewrite Hc. by destruct (PyStr.rstrip t). Qed.

Lemma rstrip_idemp s : PyStr.rstrip (PyStr.rstrip s) = PyStr.rstrip s.
Proof.
  induction s as [|c s IH]; [done|]. simpl.
  destruct (PyStr.rstrip s) as [|x r] eqn:Hr.
  - destruct (PyStr.is_space c) eqn:Hc; [done|]. simpl. by rewrite Hc.
  - change (PyStr.rstrip (String c (String x r)))
      with (match PyStr.rstrip (String x r) with
            | EmptyString => if PyStr.is_space c then EmptyString else String c EmptyString
            | r' => String c r'
            end).
    by rewrite IH.
Qed.

Lemma strip_idemp s : PyStr.strip (PyStr.strip s) = PyStr.strip s.
Proof.
  unfold PyStr.strip. pose proof (lstrip_head s) as Hh.
  destruct (PyStr.lstrip s) as [|c t]; [done|].
  rewrite rstrip_cons_nonspace by done. simpl. rewrite Hh.
  by rewrite rstrip_cons_nonspace, rstrip_idemp.
Qed.

Lemma title_from_length b s : String.length (PyStr.title_from b s) = String.length s.
Proof. revert b. induction s as [|c s IH]; intros b; [done|]. simpl. by rewrite IH. Qed.

Lemma title_empty_iff s : PyStr.title s = "" ↔ s = "".
Proof. by destruct s. Qed.

End string_case.

(** ** The order type of one category, continued *)

(** X1. The order type of a category is ['sales'], ['labour'] or
    ['service'], and it is ['sales'] for the empty category only. *)
Theorem normalize_sales_iff_empty category :
  _normalize_category_to_order_type category ∈ ["sales"; "labour"; "service"]
  ∧ (_normalize_category_to_order_type category = "sales" ↔ category = "").
Proof.
  destruct (decide (category = "")) as [->|Hne].
  - split; [set_solver|done].
  - rewrite normalize_non_empty by done. simpl.
    case_bool_decide; [split; [set_solver|done]|].
    destruct (_ || _); split; (set_solver || done).
Qed.

(** X2. A category that is not empty but blank, white space only, gets the
    order type ['labour'], not ['sales']. *)
Theorem normalize_blank_is_labour category :
  category ≠ "" → PyStr.strip category = "" →
  _normalize_category_to_order_type category = "labour".
Proof.
  intros Hne Hb. rewrite normalize_non_empty by done. simpl.
  by rewrite strip_lower, Hb.
Qed.

Lemma normalize_blank_is_labour_witness :
  _normalize_category_to_order_type " 	 " = "labour".
Proof. apply (normalize_blank_is_labour " 	 "); by vm_compute. Defined.

(** X3. The order type of a category does not depend on the letter case of
    the category, nor on white space around a category that is not
    blank. *)
Theorem normalize_ignores_case_and_padding category :
  _normalize_category_to_order_type (PyStr.lower category)
  = _normalize_category_to_order_type category
  ∧ (PyStr.strip category ≠ "" →
     _normalize_category_to_order_type (PyStr.strip category)
     = _normalize_category_to_order_type category).
Proof.
  split.
  - destruct (decide (category = "")) as [->|Hne]; [done|].
    rewrite !normalize_non_empty; [|done|by rewrite lower_empty_iff].
    simpl. by rewrite lower_idemp.
  - intros Hs. rewrite !normalize_non_empty; [|by apply strip_empty_inv|done].
    simpl. by rewrite <- strip_lower, strip_idemp.
Qed.

Lemma normalize_ignores_case_and_padding_witness :
  _normalize_category_to_order_type (PyStr.lower "  Tyre SERVICE ")
  = _normalize_category_to_order_type "  Tyre SERVICE "
  ∧ _normalize_category_to_order_type (PyStr.strip "  Tyre SERVICE ")
    = _normalize_category_to_order_type "  Tyre SERVICE ".
Proof.
  destruct (normalize_ignores_case_and_padding "  Tyre SERVICE ") as [H1 H2].
  split; [exact H1|]. apply H2. by vm_compute.
Defined.

(** ** The display string, continued *)

Lemma display_mixed order_type categories :
  order_type = "mixed" → categories ≠ [] →
  get_mixed_order_status_display order_type categories
  = "Mixed (" +:+ PyStr.join ", " (PyStr.title <$> categories) +:+ ")".
Proof.
  intros -> Hne. unfold get_mixed_order_status_display.
  by rewrite bool_decide_eq_true_2, bool_decide_eq_true_2.
Qed.

Lemma display_not_mixed order_type categories :
  order_type ≠ "mixed" ∨ categories = [] →
  get_mixed_order_status_display order_type categories
  = if bool_decide (order_type = "labour") then "Labour"
    else if bool_decide (order_type = "service") then "Service"
    else if bool_decide (order_type = "sales") then "Sales"
    else if bool_decide (order_type = "inquiry") then "Inquiry"
    else PyStr.title order_type.
Proof.
  intros Hn. unfold get_mixed_order_status_display.
  destruct Hn as [Hn | ->].
  - by rewrite (bool_decide_eq_false_2 (order_type = "mixed")).
  - by rewrite andb_false_r.
Qed.

Lemma display_title order_type categories :
  order_type ≠ "mixed" ∨ categories = [] →
  get_mixed_order_status_display order_type categories = PyStr.title order_type.
Proof.
  intros Hn. rewrite display_not_mixed by done.
  repeat case_bool_decide; by subst.
Qed.

(** X4. Unless the order type is ['mixed'] and categories are given, the
    display is the title-cased order type: the four fixed words are what
    [title] gives for their order types, and ['mixed'] without categories
    is displayed as ['Mixed']. *)
Theorem display_is_title_unless_mixed order_type categories :
  order_type ≠ "mixed" ∨ categories = [] →
  get_mixed_order_status_display order_type categories = PyStr.title order_type.
Proof. apply display_title. Qed.

Lemma display_is_title_unless_mixed_witness :
  get_mixed_order_status_display "mixed" [] = PyStr.title "mixed"
  ∧ get_mixed_order_status_display "service" ["tyre service"] = PyStr.title "service".
Proof.
  split.
  - apply (display_is_title_unless_mixed "mixed" []). by right.
  - apply (display_is_title_unless_mixed "service" ["tyre service"]). by left.
Defined.

(** X5. The display is the empty string for the empty order type only. *)
Theorem display_empty_iff order_type categories :
  get_mixed_order_status_display order_type categories = "" ↔ order_type = "".
Proof.
  destruct (decide (order_type = "mixed")) as [Hm|Hm];
    [destruct categories as [|c categories]|].
  - rewrite display_title by by right. apply title_empty_iff.
  - rewrite display_mixed by done. by subst.
  - rewrite display_title by by left. apply title_empty_iff.
Qed.

(** ** The decision on the set of categories *)

Lemma decide_order_type_empty : decide_order_type ∅ = ("sales", []).
Proof. done. Qed.

(** A set of categories is empty, a singleton, or has two elements or
    more. *)
Lemma categories_cases (X : gset string) :
  X = ∅ ∨ (∃ c, X = {[c]}) ∨ 2 ≤ size X.
Proof.
  destruct (size X) as [|[|n]] eqn:Hs.
  - left. apply leibniz_equiv. by apply size_empty_iff.
  - right. left. destruct (size_1_elem_of X Hs) as [c Hc].
    exists c. by apply leibniz_equiv.
  - right. right. lia.
Qed.

Lemma main_path_decision rows cleaned_codes :
  order_type_of (main_path rows cleaned_codes)
  = (decide_order_type (categories_of_rows rows)).1
  ∧ categories_of (main_path rows cleaned_codes)
    = (decide_order_type (categories_of_rows rows)).2.
Proof.
  unfold main_path, order_type_of, categories_of. simpl.
  by rewrite build_mappings_categories.
Qed.

Lemma categories_of_rows_empty_iff rows : categories_of_rows rows = ∅ ↔ rows = [].
Proof.
  split; [|by intros ->]. destruct rows as [|r rows]; [done|].
  unfold categories_of_rows. simpl. set_solver.
Qed.

Lemma normalize_not_mixed category :
  _normalize_category_to_order_type category ≠ "mixed".
Proof.
  unfold _normalize_category_to_order_type.
  destruct (negb _); [done|]. case_bool_decide; [done|]. by destruct (_ || _).
Qed.

Lemma normalize_sales_iff category :
  _normalize_category_to_order_type category = "sales" ↔ category = "".
Proof.
  destruct (decide (category = "")) as [->|Hne]; [done|].
  rewrite normalize_non_empty by done. simpl.
  case_bool_decide; [done|]. by destruct (_ || _).
Qed.

(** X6. Past the early exits, the order type is ['mixed'] exactly when the
    rows of the lookup carry two or more distinct categories, and ['sales']
    exactly when they carry no category or the empty category alone. *)
Theorem order_type_by_categories lookup item_codes :
  clean_codes item_codes ≠ [] →
  let r := determine_order_type_from_codes lookup item_codes in
  let found := categories_of_rows (lookup (clean_codes item_codes)) in
  (order_type_of r = "mixed" ↔ 2 ≤ size found)
  ∧ (order_type_of r = "sales" ↔ found = ∅ ∨ found = {[""]})
  ∧ (categories_of r = [] ↔ lookup (clean_codes item_codes) = []).
Proof.
  intros Hne r found. subst r found. rewrite determine_main_path by done.
  destruct (main_path_decision (lookup (clean_codes item_codes))
              (clean_codes item_codes)) as [-> ->].
  rewrite <- categories_of_rows_empty_iff.
  destruct (categories_cases (categories_of_rows (lookup (clean_codes item_codes))))
    as [HX | [[c HX] | HX]].
  - rewrite HX, decide_order_type_empty. cbn [fst snd]. rewrite size_empty.
    split_and!; split; try done; try lia. by left.
  - rewrite HX, decide_order_type_singleton. cbn [fst snd]. rewrite size_singleton.
    split_and!.
    + split; [|lia]. intros Hm. by apply normalize_not_mixed in Hm.
    + rewrite normalize_sales_iff. split.
      * intros ->. by right.
      * intros [He | He]; [set_solver|].
        assert (Hc : c ∈ ({[""]} : gset string)) by (rewrite <- He; set_solver).
        by apply elem_of_singleton in Hc.
    + split; [done|]. intros He. set_solver.
  - rewrite decide_order_type_mixed by done. cbn [fst snd]. split_and!.
    + done.
    + split; [done|]. intros [He | He]; rewrite He in HX.
      * rewrite size_empty in HX. lia.
      * rewrite size_singleton in HX. lia.
    + split.
      * intros Hs. apply (f_equal length) in Hs.
        rewrite (Permutation_length (sorted_perm _)) in Hs.
        change (size (categories_of_rows (lookup (clean_codes item_codes))) = 0) in Hs.
        lia.
      * intros He. rewrite He, size_empty in HX. lia.
Qed.

Lemma order_type_by_categories_witness :
  let r := determine_order_type_from_codes scenario_lookup scenario_items in
  let found := categories_of_rows (scenario_lookup (clean_codes scenario_items)) in
  (order_type_of r = "mixed" ↔ 2 ≤ size found)
  ∧ (order_type_of r = "sales" ↔ found = ∅ ∨ found = {[""]})
  ∧ (categories_of r = [] ↔ scenario_lookup (clean_codes scenario_items) = []).
Proof.
  apply (order_type_by_categories scenario_lookup scenario_items).
  vm_compute. discriminate.
Defined.

(** X7. For every input and every lookup, the categories list has no
    duplicates and is in ascending order; past the early exits it has one
    entry for each distinct category among the rows of the lookup, and
    holds exactly these categories. *)
Theorem categories_list_invariant lookup item_codes :
  let r := determine_order_type_from_codes lookup item_codes in
  NoDup (categories_of r)
  ∧ StronglySorted PyStr.le (categories_of r)
  ∧ (clean_codes item_codes ≠ [] →
     length (categories_of r)
     = size (categories_of_rows (lookup (clean_codes item_codes)))
     ∧ ∀ c, c ∈ categories_of r
            ↔ c ∈ row_category <$> lookup (clean_codes item_codes)).
Proof.
  intros r. subst r.
  destruct (decide (clean_codes item_codes = [])) as [He|Hne].
  { rewrite determine_early_exit by done. split_and!; [constructor..|done]. }
  rewrite determine_main_path by done.
  destruct (main_path_decision (lookup (clean_codes item_codes))
              (clean_codes item_codes)) as [_ ->].
  assert (Hin : ∀ c, c ∈ categories_of_rows (lookup (clean_codes item_codes))
                     ↔ c ∈ row_category <$> lookup (clean_codes item_codes)).
  { intros c. unfold categories_of_rows. by rewrite elem_of_list_to_set. }
  setoid_rewrite <- Hin.
  destruct (categories_cases (categories_of_rows (lookup (clean_codes item_codes))))
    as [HX | [[c HX] | HX]].
  - rewrite HX, decide_order_type_empty. cbn [fst snd].
    split_and!; [constructor..|]. intros _. split; [done|]. set_solver.
  - rewrite HX, decide_order_type_singleton. cbn [fst snd]. split_and!.
    + apply NoDup_singleton.
    + repeat constructor.
    + intros _. rewrite size_singleton. split; [done|]. set_solver.
  - rewrite decide_order_type_mixed by done. cbn [fst snd]. split_and!.
    + rewrite sorted_perm. apply NoDup_elements.
    + apply sorted_strongly_sorted.
    + intros _. split.
      * by rewrite (Permutation_length (sorted_perm _)).
      * intros c. by rewrite sorted_perm, elem_of_elements.
Qed.

Lemma categories_list_invariant_witness :
  let r := determine_order_type_from_codes scenario_lookup scenario_items in
  NoDup (categories_of r)
  ∧ StronglySorted PyStr.le (categories_of r)
  ∧ length (categories_of r)
    = size (categories_of_rows (scenario_lookup (clean_codes scenario_items)))
  ∧ ∀ c, c ∈ categories_of r
         ↔ c ∈ row_category <$> scenario_lookup (clean_codes scenario_items).
Proof.
  destruct (categories_list_invariant scenario_lookup scenario_items)
    as (H1 & H2 & H3).
  split_and!; [exact H1 | exact H2 | apply H3 | apply H3]; by vm_compute.
Defined.

(** ** The entries of the input list *)

Lemma clean_codes_filter_truthy item_codes :
  clean_codes (filter (λ code, truthy code = true) item_codes)
  = clean_codes item_codes.
Proof. unfold clean_codes. by rewrite list_filter_filter_l. Qed.

(** X8. Falsy entries, [None] and the empty string, have no effect: the
    result on a list is the result on the list without them. *)
Theorem falsy_entries_are_ignored lookup item_codes :
  determine_order_type_from_codes lookup
    (filter (λ code, truthy code = true) item_codes)
  = determine_order_type_from_codes lookup item_codes.
Proof.
  destruct (decide (clean_codes item_codes = [])) as [He|Hne].
  - rewrite !determine_early_exit; by rewrite ?clean_codes_filter_truthy.
  - rewrite !determine_main_path; by rewrite ?clean_codes_filter_truthy.
Qed.

(** X9. A cleaned code has no white space at either end, and so has every
    code listed in ['unmapped']. *)
Theorem cleaned_codes_are_stripped lookup item_codes :
  (∀ s, s ∈ clean_codes item_codes → PyStr.strip s = s)
  ∧ (∀ unmapped,
       mapping_info_of (determine_order_type_from_codes lookup item_codes)
         !! "unmapped" = Some (VList unmapped) →
       ∀ s, s ∈ unmapped → PyStr.strip s = s).
Proof.
  assert (Hc : ∀ s, s ∈ clean_codes item_codes → PyStr.strip s = s).
  { intros s. rewrite elem_of_clean_codes. intros (c & _ & _ & ->).
    apply strip_idemp. }
  split; [done|]. intros unmapped.
  destruct (decide (clean_codes item_codes = [])) as [He|Hne].
  - rewrite determine_early_exit by done. unfold mapping_info_of. simpl.
    unfold empty_mapping_info.
    rewrite lookup_insert_ne, lookup_insert_eq by done.
    intros [= <-] s Hs. by apply elem_of_nil in Hs.
  - rewrite determine_main_path by done. unfold main_path, mapping_info_of.
    cbn [snd]. rewrite lookup_insert_ne, lookup_insert_eq by done.
    intros [= <-] s Hs. apply Hc. unfold track_unmapped in Hs.
    by apply list_elem_of_filter in Hs as [_ ?].
Qed.

Lemma cleaned_codes_are_stripped_witness :
  PyStr.strip "TYR02" = "TYR02"
  ∧ ∀ s, s ∈ ["TYR02"] → PyStr.strip s = s.
Proof.
  destruct (cleaned_codes_are_stripped scenario_lookup
              [PyString " LAB01"; PyNone; PyString "TYR02  "]) as [H1 H2].
  split.
  - apply H1. vm_compute. right. left.
  - apply H2. vm_compute. reflexivity.
Defined.

(** ** The rows of the lookup *)

Lemma foldl_add_row_lookup rows st c :
  code_to_category (foldl add_row st rows) !! c
  = match last (filter (λ r, row_code r = c) rows) with
    | Some r => Some (row_category r)
    | None => code_to_category st !! c
    end.
Proof.
  revert st. induction rows as [|r rows IH]; intros st; [done|].
  simpl. rewrite IH, filter_cons. case_decide as Hc.
  - rewrite last_cons. destruct (last (filter _ rows)); [done|].
    simpl. by rewrite Hc, lookup_insert_eq.
  - destruct (last (filter _ rows)); [done|].
    simpl. by rewrite lookup_insert_ne.
Qed.

Lemma track_unmapped_empty cleaned_codes :
  track_unmapped ∅ cleaned_codes = cleaned_codes.
Proof.
  unfold track_unmapped. induction cleaned_codes as [|c l IH]; [done|].
  rewrite filter_cons_True by set_solver. by rewrite IH.
Qed.

(** X10. When the cleaned list is not empty and the lookup yields no
    row, the result is ['sales'] with no categories, an empty ['mapped']
    and every cleaned code, in order, in ['unmapped']. *)
Theorem no_row_gives_sales lookup item_codes :
  clean_codes item_codes ≠ [] →
  lookup (clean_codes item_codes) = [] →
  determine_order_type_from_codes lookup item_codes
  = ("sales", [],
     <["mapped" := VDict ∅]>
       (<["unmapped" := VList (clean_codes item_codes)]>
          (<["categories_found" := VList []]> ∅))).
Proof.
  intros Hne Hr. rewrite determine_main_path by done. rewrite Hr.
  unfold main_path, build_mappings.
  cbn [foldl categories_found code_to_category found_code_set].
  by rewrite decide_order_type_empty, track_unmapped_empty.
Qed.

Lemma no_row_gives_sales_witness :
  determine_order_type_from_codes (λ _, []) [PyString "A1"; PyString " B2 "; PyString "A1"]
  = ("sales", [],
     <["mapped" := VDict ∅]>
       (<["unmapped" := VList (clean_codes [PyString "A1"; PyString " B2 "; PyString "A1"])]>
          (<["categories_found" := VList []]> ∅))).
Proof.
  apply (no_row_gives_sales (λ _, []) [PyString "A1"; PyString " B2 "; PyString "A1"]).
  - vm_compute. discriminate.
  - reflexivity.
Defined.

(** X11. When the lookup yields several rows for one code, ['mapped']
    holds the category of the last of them; a code with no row is not a
    key of ['mapped']. *)
Theorem mapped_last_row_wins lookup item_codes c :
  clean_codes item_codes ≠ [] →
  ∃ mapped,
    mapping_info_of (determine_order_type_from_codes lookup item_codes)
      !! "mapped" = Some (VDict mapped)
    ∧ mapped !! c
      = row_category
          <$> last (filter (λ r, row_code r = c) (lookup (clean_codes item_codes))).
Proof.
  intros Hne. rewrite determine_main_path by done.
  unfold main_path, mapping_info_of. cbn [snd].
  eexists. split; [by rewrite lookup_insert_eq|].
  unfold build_mappings. rewrite foldl_add_row_lookup.
  by destruct (last _).
Qed.

Lemma mapped_last_row_wins_witness :
  ∃ mapped,
    mapping_info_of
      (determine_order_type_from_codes
         (λ _, [Row "A1" "labour"; Row "B2" "sales"; Row "A1" "tyre service"])
         [PyString "A1"; PyString "B2"])
      !! "mapped" = Some (VDict mapped)
    ∧ mapped !! "A1"
      = row_category
          <$> last (filter (λ r, row_code r = "A1")
                      [Row "A1" "labour"; Row "B2" "sales"; Row "A1" "tyre service"]).
Proof.
  apply (mapped_last_row_wins
           (λ _, [Row "A1" "labour"; Row "B2" "sales"; Row "A1" "tyre service"])
           [PyString "A1"; PyString "B2"] "A1").
  vm_compute. discriminate.
Defined.

Lemma decide_order_type_elem (X : gset string) c :
  c ∈ (decide_order_type X).2 ↔ c ∈ X.
Proof.
  destruct (categories_cases X) as [-> | [[c' ->] | HX]].
  - rewrite decide_order_type_empty. cbn [snd]. set_solver.
  - rewrite decide_order_type_singleton. cbn [snd]. set_solver.
  - rewrite decide_order_type_mixed by done. cbn [snd].
    by rewrite sorted_perm, elem_of_elements.
Qed.

Lemma filter_code_NoDup rows r :
  NoDup (row_code <$> rows) → r ∈ rows →
  filter (λ r', row_code r' = row_code r) rows = [r].
Proof.
  induction rows as [|r0 rows IH]; intros Hnd Hr; [by apply elem_of_nil in Hr|].
  rewrite fmap_cons in Hnd. apply NoDup_cons in Hnd as [Hnotin Hnd].
  apply elem_of_cons in Hr as [-> | Hr].
  - rewrite filter_cons_True by done. f_equal.
    apply elem_of_nil_inv. intros r' Hr'.
    apply list_elem_of_filter in Hr' as [Hc Hr'].
    apply Hnotin. rewrite <- Hc. by apply list_elem_of_fmap_2.
  - rewrite filter_cons_False; [by apply IH|].
    intros Hc. apply Hnotin. rewrite Hc. by apply list_elem_of_fmap_2.
Qed.

(** X12. Every category that ['mapped'] gives to a code is in the
    categories list. When the lookup yields one row for a code at most,
    every category of the list is the category of a key of ['mapped']. *)
Theorem mapped_categories_are_listed lookup item_codes :
  clean_codes item_codes ≠ [] →
  let r := determine_order_type_from_codes lookup item_codes in
  ∃ mapped,
    mapping_info_of r !! "mapped" = Some (VDict mapped)
    ∧ (∀ c cat, mapped !! c = Some cat → cat ∈ categories_of r)
    ∧ (NoDup (row_code <$> lookup (clean_codes item_codes)) →
       ∀ cat, cat ∈ categories_of r → ∃ c, mapped !! c = Some cat).
Proof.
  intros Hne r. subst r. rewrite determine_main_path by done.
  destruct (main_path_decision (lookup (clean_codes item_codes))
              (clean_codes item_codes)) as [_ ->].
  set (rows := lookup (clean_codes item_codes)).
  exists (code_to_category (build_mappings rows)). split_and!.
  - unfold main_path, mapping_info_of. cbn [snd]. by rewrite lookup_insert_eq.
  - intros c cat. unfold build_mappings. rewrite foldl_add_row_lookup.
    destruct (last _) as [r|] eqn:Hl; [|done].
    intros [= <-]. apply last_Some_elem_of, list_elem_of_filter in Hl as [_ Hr].
    rewrite decide_order_type_elem. unfold categories_of_rows.
    rewrite elem_of_list_to_set. by apply list_elem_of_fmap_2.
  - intros Hnd cat. rewrite decide_order_type_elem. unfold categories_of_rows.
    rewrite elem_of_list_to_set, list_elem_of_fmap. intros (r & -> & Hr).
    exists (row_code r). unfold build_mappings.
    by rewrite foldl_add_row_lookup, filter_code_NoDup.
Qed.

Lemma mapped_categories_are_listed_witness :
  let r := determine_order_type_from_codes
             (λ _, [Row "A1" "labour"; Row "B2" "tyre service"])
             [PyString "A1"; PyString "B2"; PyString "C3"] in
  ∃ mapped,
    mapping_info_of r !! "mapped" = Some (VDict mapped)
    ∧ (∀ c cat, mapped !! c = Some cat → cat ∈ categories_of r)
    ∧ (NoDup (row_code <$> [Row "A1" "labour"; Row "B2" "tyre service"]) →
       ∀ cat, cat ∈ categories_of r → ∃ c, mapped !! c = Some cat).
Proof.
  apply (mapped_categories_are_listed
           (λ _, [Row "A1" "labour"; Row "B2" "tyre service"])
           [PyString "A1"; PyString "B2"; PyString "C3"]).
  vm_compute. discriminate.
Defined.

(** ** The result and its display *)

Lemma normalize_cases category :
  _normalize_category_to_order_type category = "sales"
  ∨ _normalize_category_to_order_type category = "labour"
  ∨ _normalize_category_to_order_type category = "service".
Proof.
  unfold _normalize_category_to_order_type.
  destruct (negb _); [auto|]. case_bool_decide; [auto|].
  destruct (PyStr.contains "tyre" _ || _); auto.
Qed.

(** X13. The display of a result of [determine_order_type_from_codes] is
    ['Sales'], ['Labour'] or ['Service'], or the order type is ['mixed'],
    the list has two categories or more and the display is ['Mixed ('],
    the title-cased categories joined by a comma and a space, and [')']:
    the title-case fallback and ['Inquiry'] are not reached. *)
Theorem display_of_result lookup item_codes :
  let r := determine_order_type_from_codes lookup item_codes in
  let shown := get_mixed_order_status_display (order_type_of r) (categories_of r) in
  shown ∈ ["Sales"; "Labour"; "Service"]
  ∨ (order_type_of r = "mixed"
     ∧ 2 ≤ length (categories_of r)
     ∧ shown = "Mixed (" +:+ PyStr.join ", " (PyStr.title <$> categories_of r) +:+ ")").
Proof.
  intros r shown. subst r shown.
  destruct (decide (clean_codes item_codes = [])) as [He|Hne].
  { rewrite determine_early_exit by done. left. set_solver. }
  rewrite determine_main_path by done.
  destruct (main_path_decision (lookup (clean_codes item_codes))
              (clean_codes item_codes)) as [-> ->].
  destruct (categories_cases (categories_of_rows (lookup (clean_codes item_codes))))
    as [-> | [[c ->] | HX]].
  - left. rewrite decide_order_type_empty. set_solver.
  - left. rewrite decide_order_type_singleton. cbn [fst snd].
    destruct (normalize_cases c) as [-> | [-> | ->]];
      (rewrite display_not_mixed by by left); vm_compute; set_solver.
  - right. rewrite decide_order_type_mixed by done. cbn [fst snd].
    assert (Hlen : 2 ≤ length (PyStr.sorted
                      (elements (categories_of_rows (lookup (clean_codes item_codes)))))).
    { by rewrite (Permutation_length (sorted_perm _)). }
    split_and!; [done..|]. apply display_mixed; [done|].
    intros Hs. rewrite Hs in Hlen. simpl in Hlen. lia.
Qed.

(** ** The lookup in a table of labour codes *)

Lemma elem_of_LabourCode_filter table codes r :
  r ∈ LabourCode_filter table codes
  ↔ ∃ e, e ∈ table ∧ is_active e = true ∧ code e ∈ codes
         ∧ r = Row (code e) (category e).
Proof.
  unfold LabourCode_filter. rewrite list_elem_of_fmap. split.
  - intros (e & -> & He). apply list_elem_of_filter in He as [[? ?] ?]. eauto 6.
  - intros (e & ? & ? & ? & ->). exists e. split; [done|].
    by apply list_elem_of_filter.
Qed.

Lemma codes_of_LabourCode_filter table codes c :
  c ∈ codes_of_rows (LabourCode_filter table codes)
  ↔ c ∈ codes ∧ ∃ e, e ∈ table ∧ is_active e = true ∧ code e = c.
Proof.
  unfold codes_of_rows. rewrite elem_of_list_to_set, list_elem_of_fmap. split.
  - intros (r & -> & Hr). apply elem_of_LabourCode_filter in Hr
      as (e & ? & ? & ? & ->). simpl. eauto.
  - intros (Hc & e & ? & ? & <-). exists (Row (code e) (category e)).
    split; [done|]. apply elem_of_LabourCode_filter. eauto 6.
Qed.

(** X14. With the lookup in a table: a cleaned code is a key of
    ['mapped'] when the table has an active entry for it, and is listed in
    ['unmapped'] when it has none, an inactive entry counting for none;
    every key of ['mapped'] is a cleaned code; and ['mapped'] gives to the
    code of an active entry the category of that entry, when the active
    entries of that code agree on the category. *)
Theorem table_lookup_mapping table item_codes :
  clean_codes item_codes ≠ [] →
  let r := determine_order_type_from_codes (LabourCode_filter table) item_codes in
  let active := λ c, ∃ e, e ∈ table ∧ is_active e = true ∧ code e = c in
  ∃ mapped unmapped,
    mapping_info_of r !! "mapped" = Some (VDict mapped)
    ∧ mapping_info_of r !! "unmapped" = Some (VList unmapped)
    ∧ (∀ c, c ∈ dom mapped ↔ c ∈ clean_codes item_codes ∧ active c)
    ∧ (∀ c, c ∈ unmapped ↔ c ∈ clean_codes item_codes ∧ ¬ active c)
    ∧ (∀ e, e ∈ table → is_active e = true → code e ∈ clean_codes item_codes →
         (∀ e', e' ∈ table → is_active e' = true → code e' = code e →
                category e' = category e) →
         mapped !! code e = Some (category e)).
Proof.
  intros Hne r active. subst r. rewrite determine_main_path by done.
  set (cleaned := clean_codes item_codes) in *.
  set (rows := LabourCode_filter table cleaned).
  exists (code_to_category (build_mappings rows)),
         (track_unmapped (found_code_set (build_mappings rows)) cleaned).
  unfold main_path, mapping_info_of. cbn [snd]. split_and!.
  - by rewrite lookup_insert_eq.
  - by rewrite lookup_insert_ne, lookup_insert_eq.
  - intros c. rewrite build_mappings_dom. apply codes_of_LabourCode_filter.
  - intros c. unfold track_unmapped.
    rewrite list_elem_of_filter, build_mappings_found.
    unfold rows. rewrite codes_of_LabourCode_filter. subst active. tauto.
  - intros e He Ha Hc Hagree. unfold build_mappings.
    rewrite foldl_add_row_lookup.
    destruct (last _) as [r|] eqn:Hl.
    + apply last_Some_elem_of, list_elem_of_filter in Hl as [Hrc Hr].
      apply elem_of_LabourCode_filter in Hr as (e' & ? & ? & ? & ->).
      simpl in *. f_equal. by apply Hagree.
    + apply last_None in Hl.
      assert (Hin : Row (code e) (category e)
                    ∈ filter (λ r, row_code r = code e) rows).
      { apply list_elem_of_filter. split; [done|].
        apply elem_of_LabourCode_filter. eauto 6. }
      rewrite Hl in Hin. by apply elem_of_nil in Hin.
Qed.

Lemma table_lookup_mapping_witness :
  let r := determine_order_type_from_codes (LabourCode_filter labour_table)
             [PyString "LAB01"; PyString "OLD09"] in
  let active := λ c, ∃ e, e ∈ labour_table ∧ is_active e = true ∧ code e = c in
  ∃ mapped unmapped,
    mapping_info_of r !! "mapped" = Some (VDict mapped)
    ∧ mapping_info_of r !! "unmapped" = Some (VList unmapped)
    ∧ (∀ c, c ∈ dom mapped
            ↔ c ∈ clean_codes [PyString "LAB01"; PyString "OLD09"] ∧ active c)
    ∧ (∀ c, c ∈ unmapped
            ↔ c ∈ clean_codes [PyString "LAB01"; PyString "OLD09"] ∧ ¬ active c)
    ∧ (∀ e, e ∈ labour_table → is_active e = true →
         code e ∈ clean_codes [PyString "LAB01"; PyString "OLD09"] →
         (∀ e', e' ∈ labour_table → is_active e' = true → code e' = code e →
                category e' = category e) →
         mapped !! code e = Some (category e)).
Proof.
  apply (table_lookup_mapping labour_table [PyString "LAB01"; PyString "OLD09"]).
  vm_compute. discriminate.
Defined.

(** X15. With the lookup in a table, the order type, the categories and
    ['mapped'] depend on which codes the cleaned list holds, not on their
    order nor on how often a code is repeated. *)
Theorem repeats_and_order_are_irrelevant table item_codes item_codes' :
  (∀ c, c ∈ clean_codes item_codes ↔ c ∈ clean_codes item_codes') →
  let r := determine_order_type_from_codes (LabourCode_filter table) item_codes in
  let r' := determine_order_type_from_codes (LabourCode_filter table) item_codes' in
  order_type_of r = order_type_of r'
  ∧ categories_of r = categories_of r'
  ∧ mapping_info_of r !! "mapped" = mapping_info_of r' !! "mapped".
Proof.
  intros Hsame r r'. subst r r'.
  destruct (decide (clean_codes item_codes = [])) as [He|Hne].
  - assert (He' : clean_codes item_codes' = []).
    { apply elem_of_nil_inv. intros c Hc. apply Hsame in Hc.
      rewrite He in Hc. by apply elem_of_nil in Hc. }
    by rewrite !determine_early_exit.
  - assert (Hne' : clean_codes item_codes' ≠ []).
    { intros He'. apply Hne, elem_of_nil_inv. intros c Hc. apply Hsame in Hc.
      rewrite He' in Hc. by apply elem_of_nil in Hc. }
    rewrite !determine_main_path by done.
    rewrite (LabourCode_filter_ext table (clean_codes item_codes)
               (clean_codes item_codes')) by (intros; apply Hsame).
    unfold main_path, order_type_of, categories_of, mapping_info_of. cbn [fst snd].
    by rewrite !lookup_insert_eq.
Qed.

Lemma repeats_and_order_are_irrelevant_witness :
  let r := determine_order_type_from_codes (LabourCode_filter labour_table)
             [PyString "XYZ"; PyString "LAB01"; PyString "XYZ"] in
  let r' := determine_order_type_from_codes (LabourCode_filter labour_table)
              [PyString "LAB01"; PyString "XYZ"] in
  order_type_of r = order_type_of r'
  ∧ categories_of r = categories_of r'
  ∧ mapping_info_of r !! "mapped" = mapping_info_of r' !! "mapped".
Proof.
  apply (repeats_and_order_are_irrelevant labour_table
           [PyString "XYZ"; PyString "LAB01"; PyString "XYZ"]
           [PyString "LAB01"; PyString "XYZ"]).
  intros c.
  change (clean_codes [PyString "XYZ"; PyString "LAB01"; PyString "XYZ"])
    with ["XYZ"; "LAB01"; "XYZ"].
  change (clean_codes [PyString "LAB01"; PyString "XYZ"]) with ["LAB01"; "XYZ"].
  rewrite !elem_of_cons, !elem_of_nil. tauto.
Defined.

(** ** Categories are compared as they are written *)

(** X16. Two rows whose categories differ as strings make the order
    ['mixed'], also when both categories have the same order type, as
    ['labour'] and ['Labour'] have. *)
Theorem distinct_category_strings_give_mixed lookup item_codes r1 r2 :
  clean_codes item_codes ≠ [] →
  r1 ∈ lookup (clean_codes item_codes) →
  r2 ∈ lookup (clean_codes item_codes) →
  row_category r1 ≠ row_category r2 →
  order_type_of (determine_order_type_from_codes lookup item_codes) = "mixed".
Proof.
  intros Hne H1 H2 Hd. rewrite determine_main_path by done.
  destruct (main_path_decision (lookup (clean_codes item_codes))
              (clean_codes item_codes)) as [-> _].
  assert (Hin : ∀ r, r ∈ lookup (clean_codes item_codes) →
                  row_category r ∈ categories_of_rows (lookup (clean_codes item_codes))).
  { intros r Hr. unfold categories_of_rows. rewrite elem_of_list_to_set.
    by apply list_elem_of_fmap_2. }
  apply Hin in H1, H2.
  destruct (categories_cases (categories_of_rows (lookup (clean_codes item_codes))))
    as [HX | [[c HX] | HX]].
  - rewrite HX in H1. set_solver.
  - rewrite HX in H1, H2. set_solver.
  - by rewrite decide_order_type_mixed.
Qed.

Lemma distinct_category_strings_give_mixed_witness :
  order_type_of
    (determine_order_type_from_codes
       (λ _, [Row "L1" "labour"; Row "L2" "Labour"])
       [PyString "L1"; PyString "L2"])
  = "mixed".
Proof.
  apply (distinct_category_strings_give_mixed
           (λ _, [Row "L1" "labour"; Row "L2" "Labour"])
           [PyString "L1"; PyString "L2"]
           (Row "L1" "labour") (Row "L2" "Labour")).
  - vm_compute. discriminate.
  - left.
  - right. left.
  - simpl. discriminate.
Defined.
